(** * Cap desktop: the generated command bindings ([utils/tauri.ts])

    The file embeds the TypeScript module [apps/desktop-solid/src/utils/tauri.ts]:
    its exported types, the [Result] type, and the thirty members of the
    [commands] object, each a thin asynchronous wrapper around [TAURI_INVOKE].

    - A TypeScript record type is a [Record]; a union of string literals or of
      tagged objects is a [Variant]; [T | null] is [option T]; a tuple type is
      a product.  A field keeps its name; where two types share a field name
      it is prefixed with the name of its type.
    - [number] is an IEEE double in TypeScript.  Every value of these types
      crosses the bridge as JSON, which has no NaN and no infinity, so the
      numbers that can occur are finite and the model takes the rationals [Q].
    - A promise is a state transformer on the world outside the page (the
      backend behind the bridge) that settles: it is fulfilled with a value
      or rejected with a thrown JavaScript value.
    - [TAURI_INVOKE] is the one thing the module imports and calls; it is a
      parameter of every wrapper.
    - The [events] proxy hands out functions that call the event API or a
      window; a function is modelled by the call it makes.  The payload
      types of the events are used by no statement below and are left out.

    The definitions come first: the types, the commands, the values on the
    wire, and three models of the backend written from the specification
    (the Render Engine, the Editor Instance and the Recording Session).
    The statements follow: about the bindings, then about each model. *)

From stdpp Require Import base option list strings gmap.
From Stdlib Require Import QArith Qround.

Close Scope Q_scope.
Open Scope string_scope.
Open Scope list_scope.

(** ** JavaScript values

    What [catch (e)] can bind: [e] has type [unknown].  [JsError] stands for
    the objects for which [e instanceof Error] holds. *)

#[local] Set Warnings "-register-all".

Inductive JsValue : Type :=
| JsUndefined
| JsNull
| JsBoolean (b : bool)
| JsNumber (n : Q)
| JsString (s : string)
| JsArray (items : list JsValue)
| JsObject (fields : list (string * JsValue))
| JsError (name message : string).

Definition instanceof_Error (e : JsValue) : bool :=
  match e with
  | JsError _ _ => true
  | _ => false
  end.

(** ** user-defined types *)

Definition number : Type := Q.

(** The TypeScript type [null] (one value) and the result of a function
    declared [Promise<void>] (it returns nothing: [undefined]). *)
Variant TsNull : Set := null.
Variant TsVoid : Set := undefined.

Variant AspectRatio : Set := wide | vertical | square | classic | tall.

Record Audio : Type :=
  { Audio_duration : number; sample_rate : number; channels : number }.

Record AudioConfiguration : Set := { mute : bool; improve : bool }.

Variant BackgroundSource : Type :=
| wallpaper (id : number)
| image (path : option string)
| color (value : number * number * number)
| gradient (from to : number * number * number).

Record Bounds : Type :=
  { Bounds_x : number; Bounds_y : number; Bounds_width : number; Bounds_height : number }.

Variant CameraXPosition : Set := left | center | right.
Variant CameraYPosition : Set := top | bottom.

Record CameraPosition : Set :=
  { CameraPosition_x : CameraXPosition; CameraPosition_y : CameraYPosition }.

Record CameraConfiguration : Type :=
  { hide : bool; mirror : bool; Camera_position : CameraPosition;
    Camera_rounding : number; shadow : number }.

Variant CaptureTarget : Type :=
| CaptureTarget_screen
| CaptureTarget_window (id : number).

Record CaptureWindow : Type := { CaptureWindow_id : number; CaptureWindow_name : string }.

Record XY (T : Type) : Type := { XY_x : T; XY_y : T }.
Arguments XY_x {T}.
Arguments XY_y {T}.

Record Crop : Type := { Crop_position : XY number; Crop_size : XY number }.

Record BackgroundConfiguration : Type :=
  { source : BackgroundSource; blur : number; padding : number;
    Background_rounding : number; inset : number; crop : option Crop }.

Variant CursorType : Set := pointer | circle.

Record CursorConfiguration : Type :=
  { hideWhenIdle : bool; Cursor_size : number; Cursor_type : CursorType }.

Variant DisplaySource : Type :=
| DisplaySource_screen
| DisplaySource_window (bounds : Bounds).

Record HotkeysConfiguration : Set := { show : bool }.

Record InProgressRecording : Type :=
  { recordingDir : string; displaySource : DisplaySource }.

(** [export type JsonValue<T> = [T]]: the one-element tuple. *)
Variant JsonValue (T : Type) : Type := tuple1 (item : T).
Arguments tuple1 {T}.

Variant MacOSPermissionSettings : Set := screenRecording_setting.

Record MacOSPermissionsCheck : Set := { screenRecording : bool }.

Record OSPermissionSettings : Set := { macOS : MacOSPermissionSettings }.

Variant OSPermissionsCheck : Set :=
| os_macOS (check : MacOSPermissionsCheck)
| os_other.

Record ProjectConfiguration : Type :=
  { aspectRatio : option AspectRatio;
    background : BackgroundConfiguration;
    camera : CameraConfiguration;
    audio : AudioConfiguration;
    cursor : CursorConfiguration;
    hotkeys : HotkeysConfiguration }.

Record Video : Type :=
  { Video_duration : number; Video_width : number; Video_height : number; fps : number }.

Record ProjectRecordings : Type :=
  { Recordings_display : Video;
    Recordings_camera : option Video;
    Recordings_audio : option Audio }.

Record RecordingOptions : Type :=
  { captureTarget : CaptureTarget;
    cameraLabel : option string;
    audioInputName : option string }.

Variant RenderProgress : Type :=
| Starting (total_frames : number)
| EstimatedTotalFrames (total_frames : number)
| FrameRendered (current_frame : number).

Record SerializedEditorInstance : Type :=
  { framesSocketUrl : string;
    recordingDuration : number;
    savedProjectConfig : option ProjectConfiguration;
    recordings : ProjectRecordings;
    Instance_path : string }.

Variant VideoType : Set := VideoType_screen | VideoType_output.

(** ** tauri-specta globals *)

(** [Channel<T>] of [@tauri-apps/api/core]: the page hands the backend the
    channel's id; the messages arrive in the order they were sent. *)
Record TAURI_CHANNEL (T : Type) : Set := { channel_id : nat }.
Arguments channel_id {T}.

(** [export type Result<T, E> = { status: "ok"; data: T } | { status: "error"; error: E }] *)
Variant Result (T E : Type) : Type :=
| ok (data : T)
| error (err : E).
Arguments ok {T E}.
Arguments error {T E}.

(** The commands of the backend, each with the argument object the binding
    builds for it, indexed by the type its binding reads the answer at.  A
    binding declared [Promise<void>] discards the answer: its index is
    [JsValue], whatever came back. *)
Inductive Cmd : Type -> Type :=
| get_recording_options : Cmd RecordingOptions
| set_recording_options (options : RecordingOptions) : Cmd TsNull
| create_camera_window : Cmd JsValue
| start_recording : Cmd TsNull
| stop_recording : Cmd TsNull
| list_cameras : Cmd (list string)
| list_capture_windows : Cmd (list CaptureWindow)
| list_audio_devices : Cmd (list string)
| get_prev_recordings : Cmd (list string)
| show_previous_recordings_window : Cmd JsValue
| close_previous_recordings_window : Cmd JsValue
| set_fake_window_bounds (name : string) (bounds : Bounds) : Cmd TsNull
| remove_fake_window (name : string) : Cmd TsNull
| focus_captures_panel : Cmd JsValue
| get_current_recording : Cmd (JsonValue (option InProgressRecording))
| render_to_file (outputPath videoId : string) (project : ProjectConfiguration)
    (progressChannel : TAURI_CHANNEL RenderProgress) : Cmd JsValue
| get_rendered_video (videoId : string) (project : ProjectConfiguration) : Cmd string
| copy_file_to_path (src dst : string) : Cmd TsNull
| copy_rendered_video_to_clipboard (videoId : string) (project : ProjectConfiguration) : Cmd TsNull
| get_video_metadata (videoId : string) (videoType : option VideoType) : Cmd (number * number)
| create_editor_instance (videoId : string) : Cmd SerializedEditorInstance
| start_playback (videoId : string) (project : ProjectConfiguration) : Cmd JsValue
| stop_playback (videoId : string) : Cmd JsValue
| set_playhead_position (videoId : string) (frameNumber : number) : Cmd JsValue
| open_in_finder (path : string) : Cmd JsValue
| save_project_config (videoId : string) (config : ProjectConfiguration) : Cmd JsValue
| open_editor (id : string) : Cmd JsValue
| open_main_window : Cmd JsValue
| open_permission_settings (settings : OSPermissionSettings) : Cmd JsValue
| do_permissions_check : Cmd OSPermissionsCheck.

(** ** Promises *)

Variant Settled (A : Type) : Type :=
| Fulfilled (a : A)
| Rejected (e : JsValue).
Arguments Fulfilled {A}.
Arguments Rejected {A}.

Definition Promise (World A : Type) : Type := World -> Settled A * World.

Section Async.
Context {World : Type}.

(** [return a] in an [async] function. *)
Definition resolve {A} (a : A) : Promise World A := fun w => (Fulfilled a, w).

(** [throw e]. *)
Definition throw {A} (e : JsValue) : Promise World A := fun w => (Rejected e, w).

(** [await p] followed by the rest of the function: a rejection of [p]
    leaves the function at once, as an exception. *)
Definition awaiting {A B} (p : Promise World A) (k : A -> Promise World B) : Promise World B :=
  fun w =>
    match p w with
    | (Fulfilled a, w') => k a w'
    | (Rejected e, w') => (Rejected e, w')
    end.

(** [try { body } catch (e) { handler }]. *)
Definition try_catch {A} (body : Promise World A) (handler : JsValue -> Promise World A)
  : Promise World A :=
  fun w =>
    match body w with
    | (Fulfilled a, w') => (Fulfilled a, w')
    | (Rejected e, w') => handler e w'
    end.

End Async.

Notation "'await' x <- p ; k" := (awaiting p (fun x => k))
  (at level 10, x name, p at level 100, k at level 200,
   format "'[v' 'await'  x  <-  p ; '/' k ']'").

(** ** user-defined commands

    The members of [commands], in the order of the source.  A member whose
    backend command returns a Rust [Result] is generated with the
    [try]/[catch] block; the others await the call and return its answer, or
    nothing when declared [Promise<void>]. *)

Section Commands.
Context {World : Type}.
Variable TAURI_INVOKE : forall T : Type, Cmd T -> Promise World T.
Arguments TAURI_INVOKE {T}.

Definition getRecordingOptions : Promise World (Result RecordingOptions JsValue) :=
  try_catch
    (await data <- TAURI_INVOKE get_recording_options; resolve (ok data))
    (fun e => if instanceof_Error e then throw e else resolve (error e)).

Definition setRecordingOptions (options : RecordingOptions)
  : Promise World (Result TsNull JsValue) :=
  try_catch
    (await data <- TAURI_INVOKE (set_recording_options options); resolve (ok data))
    (fun e => if instanceof_Error e then throw e else resolve (error e)).

Definition createCameraWindow : Promise World TsVoid :=
  await _ <- TAURI_INVOKE create_camera_window; resolve undefined.

Definition startRecording : Promise World (Result TsNull JsValue) :=
  try_catch
    (await data <- TAURI_INVOKE start_recording; resolve (ok data))
    (fun e => if instanceof_Error e then throw e else resolve (error e)).

Definition stopRecording : Promise World (Result TsNull JsValue) :=
  try_catch
    (await data <- TAURI_INVOKE stop_recording; resolve (ok data))
    (fun e => if instanceof_Error e then throw e else resolve (error e)).

Definition listCameras : Promise World (list string) :=
  await r <- TAURI_INVOKE list_cameras; resolve r.

Definition listCaptureWindows : Promise World (list CaptureWindow) :=
  await r <- TAURI_INVOKE list_capture_windows; resolve r.

Definition listAudioDevices : Promise World (list string) :=
  await r <- TAURI_INVOKE list_audio_devices; resolve r.

Definition getPrevRecordings : Promise World (Result (list string) JsValue) :=
  try_catch
    (await data <- TAURI_INVOKE get_prev_recordings; resolve (ok data))
    (fun e => if instanceof_Error e then throw e else resolve (error e)).

Definition showPreviousRecordingsWindow : Promise World TsVoid :=
  await _ <- TAURI_INVOKE show_previous_recordings_window; resolve undefined.

Definition closePreviousRecordingsWindow : Promise World TsVoid :=
  await _ <- TAURI_INVOKE close_previous_recordings_window; resolve undefined.

Definition setFakeWindowBounds (name : string) (bounds : Bounds)
  : Promise World (Result TsNull JsValue) :=
  try_catch
    (await data <- TAURI_INVOKE (set_fake_window_bounds name bounds); resolve (ok data))
    (fun e => if instanceof_Error e then throw e else resolve (error e)).

Definition removeFakeWindow (name : string) : Promise World (Result TsNull JsValue) :=
  try_catch
    (await data <- TAURI_INVOKE (remove_fake_window name); resolve (ok data))
    (fun e => if instanceof_Error e then throw e else resolve (error e)).

Definition focusCapturesPanel : Promise World TsVoid :=
  await _ <- TAURI_INVOKE focus_captures_panel; resolve undefined.

Definition getCurrentRecording
  : Promise World (Result (JsonValue (option InProgressRecording)) JsValue) :=
  try_catch
    (await data <- TAURI_INVOKE get_current_recording; resolve (ok data))
    (fun e => if instanceof_Error e then throw e else resolve (error e)).

Definition renderToFile (outputPath videoId : string) (project : ProjectConfiguration)
  (progressChannel : TAURI_CHANNEL RenderProgress) : Promise World TsVoid :=
  await _ <- TAURI_INVOKE (render_to_file outputPath videoId project progressChannel); resolve undefined.

Definition getRenderedVideo (videoId : string) (project : ProjectConfiguration)
  : Promise World (Result string JsValue) :=
  try_catch
    (await data <- TAURI_INVOKE (get_rendered_video videoId project); resolve (ok data))
    (fun e => if instanceof_Error e then throw e else resolve (error e)).

Definition copyFileToPath (src dst : string) : Promise World (Result TsNull JsValue) :=
  try_catch
    (await data <- TAURI_INVOKE (copy_file_to_path src dst); resolve (ok data))
    (fun e => if instanceof_Error e then throw e else resolve (error e)).

Definition copyRenderedVideoToClipboard (videoId : string) (project : ProjectConfiguration)
  : Promise World (Result TsNull JsValue) :=
  try_catch
    (await data <- TAURI_INVOKE (copy_rendered_video_to_clipboard videoId project); resolve (ok data))
    (fun e => if instanceof_Error e then throw e else resolve (error e)).

Definition getVideoMetadata (videoId : string) (videoType : option VideoType)
  : Promise World (Result (number * number) JsValue) :=
  try_catch
    (await data <- TAURI_INVOKE (get_video_metadata videoId videoType); resolve (ok data))
    (fun e => if instanceof_Error e then throw e else resolve (error e)).

Definition createEditorInstance (videoId : string)
  : Promise World (Result SerializedEditorInstance JsValue) :=
  try_catch
    (await data <- TAURI_INVOKE (create_editor_instance videoId); resolve (ok data))
    (fun e => if instanceof_Error e then throw e else resolve (error e)).

Definition startPlayback (videoId : string) (project : ProjectConfiguration)
  : Promise World TsVoid :=
  await _ <- TAURI_INVOKE (start_playback videoId project); resolve undefined.

Definition stopPlayback (videoId : string) : Promise World TsVoid :=
  await _ <- TAURI_INVOKE (stop_playback videoId); resolve undefined.

Definition setPlayheadPosition (videoId : string) (frameNumber : number)
  : Promise World TsVoid :=
  await _ <- TAURI_INVOKE (set_playhead_position videoId frameNumber); resolve undefined.

Definition openInFinder (path : string) : Promise World TsVoid :=
  await _ <- TAURI_INVOKE (open_in_finder path); resolve undefined.

Definition saveProjectConfig (videoId : string) (config : ProjectConfiguration)
  : Promise World TsVoid :=
  await _ <- TAURI_INVOKE (save_project_config videoId config); resolve undefined.

Definition openEditor (id : string) : Promise World TsVoid :=
  await _ <- TAURI_INVOKE (open_editor id); resolve undefined.

Definition openMainWindow : Promise World TsVoid :=
  await _ <- TAURI_INVOKE open_main_window; resolve undefined.

Definition openPermissionSettings (settings : OSPermissionSettings) : Promise World TsVoid :=
  await _ <- TAURI_INVOKE (open_permission_settings settings); resolve undefined.

Definition doPermissionsCheck : Promise World OSPermissionsCheck :=
  await r <- TAURI_INVOKE do_permissions_check; resolve r.

(** *** The [commands] object as one family

    How a member hands the answer of its command to the caller. *)
Variant Shape : Set :=
| ResultShape   (* declared [Promise<Result<T, E>>]: the try/catch block *)
| PlainShape    (* declared [Promise<T>]: [return await TAURI_INVOKE(..)] *)
| VoidShape.    (* declared [Promise<void>]: [await TAURI_INVOKE(..)] *)

Definition shape {T} (c : Cmd T) : Shape :=
  match c with
  | get_recording_options | set_recording_options _ | start_recording | stop_recording
  | get_prev_recordings | set_fake_window_bounds _ _ | remove_fake_window _
  | get_current_recording | get_rendered_video _ _ | copy_file_to_path _ _
  | copy_rendered_video_to_clipboard _ _ | get_video_metadata _ _
  | create_editor_instance _ => ResultShape
  | list_cameras | list_capture_windows | list_audio_devices | do_permissions_check =>
      PlainShape
  | _ => VoidShape
  end.

Definition Returns (s : Shape) (T : Type) : Type :=
  match s with
  | ResultShape => Result T JsValue
  | PlainShape => T
  | VoidShape => TsVoid
  end.

(** [commands c]: the member of [commands] that invokes [c], applied to the
    arguments [c] carries. *)
Definition commands {T} (c : Cmd T) : Promise World (Returns (shape c) T) :=
  match c in Cmd T0 return Promise World (Returns (shape c) T0) with
  | get_recording_options => getRecordingOptions
  | set_recording_options options => setRecordingOptions options
  | create_camera_window => createCameraWindow
  | start_recording => startRecording
  | stop_recording => stopRecording
  | list_cameras => listCameras
  | list_capture_windows => listCaptureWindows
  | list_audio_devices => listAudioDevices
  | get_prev_recordings => getPrevRecordings
  | show_previous_recordings_window => showPreviousRecordingsWindow
  | close_previous_recordings_window => closePreviousRecordingsWindow
  | set_fake_window_bounds name bounds => setFakeWindowBounds name bounds
  | remove_fake_window name => removeFakeWindow name
  | focus_captures_panel => focusCapturesPanel
  | get_current_recording => getCurrentRecording
  | render_to_file outputPath videoId project progressChannel =>
      renderToFile outputPath videoId project progressChannel
  | get_rendered_video videoId project => getRenderedVideo videoId project
  | copy_file_to_path src dst => copyFileToPath src dst
  | copy_rendered_video_to_clipboard videoId project =>
      copyRenderedVideoToClipboard videoId project
  | get_video_metadata videoId videoType => getVideoMetadata videoId videoType
  | create_editor_instance videoId => createEditorInstance videoId
  | start_playback videoId project => startPlayback videoId project
  | stop_playback videoId => stopPlayback videoId
  | set_playhead_position videoId frameNumber => setPlayheadPosition videoId frameNumber
  | open_in_finder path => openInFinder path
  | save_project_config videoId config => saveProjectConfig videoId config
  | open_editor id => openEditor id
  | open_main_window => openMainWindow
  | open_permission_settings settings => openPermissionSettings settings
  | do_permissions_check => doPermissionsCheck
  end.

End Commands.

(** ** The values on the wire

    The JSON value a typed value is, field by field as the types above
    declare them. *)

Class Serialize (T : Type) : Type := to_js : T -> JsValue.
#[global] Hint Mode Serialize ! : typeclass_instances.

#[global] Instance Serialize_JsValue : Serialize JsValue := fun v => v.
#[global] Instance Serialize_number : Serialize number := JsNumber.
#[global] Instance Serialize_string : Serialize string := JsString.
#[global] Instance Serialize_TsNull : Serialize TsNull := fun _ => JsNull.

#[global] Instance Serialize_nullable {T} `{Serialize T} : Serialize (option T) :=
  fun o => match o with Some v => to_js v | None => JsNull end.

#[global] Instance Serialize_JsonValue {T} `{Serialize T} : Serialize (JsonValue T) :=
  fun t => match t with tuple1 v => JsArray [to_js v] end.

#[global] Instance Serialize_Bounds : Serialize Bounds :=
  fun b => JsObject [("x", to_js (Bounds_x b)); ("y", to_js (Bounds_y b));
                     ("width", to_js (Bounds_width b)); ("height", to_js (Bounds_height b))].

#[global] Instance Serialize_DisplaySource : Serialize DisplaySource :=
  fun d => match d with
           | DisplaySource_screen => JsObject [("variant", JsString "screen")]
           | DisplaySource_window bounds =>
               JsObject [("variant", JsString "window"); ("bounds", to_js bounds)]
           end.

#[global] Instance Serialize_InProgressRecording : Serialize InProgressRecording :=
  fun r => JsObject [("recordingDir", to_js (recordingDir r));
                     ("displaySource", to_js (displaySource r))].

#[global] Instance Serialize_Result {T E} `{Serialize T} `{Serialize E}
  : Serialize (Result T E) :=
  fun r => match r with
           | ok data => JsObject [("status", JsString "ok"); ("data", to_js data)]
           | error e => JsObject [("status", JsString "error"); ("error", to_js e)]
           end.

(** ** Structural equality of the value types *)

#[global] Instance Q_eq_dec : EqDecision Q.
Proof. solve_decision. Defined.
#[global] Instance number_eq_dec : EqDecision number := Q_eq_dec.
#[global] Instance AspectRatio_eq_dec : EqDecision AspectRatio.
Proof. solve_decision. Defined.
#[global] Instance AudioConfiguration_eq_dec : EqDecision AudioConfiguration.
Proof. solve_decision. Defined.
#[global] Instance BackgroundSource_eq_dec : EqDecision BackgroundSource.
Proof. solve_decision. Defined.
#[global] Instance CameraXPosition_eq_dec : EqDecision CameraXPosition.
Proof. solve_decision. Defined.
#[global] Instance CameraYPosition_eq_dec : EqDecision CameraYPosition.
Proof. solve_decision. Defined.
#[global] Instance CameraPosition_eq_dec : EqDecision CameraPosition.
Proof. solve_decision. Defined.
#[global] Instance CameraConfiguration_eq_dec : EqDecision CameraConfiguration.
Proof. solve_decision. Defined.
#[global] Instance XY_eq_dec {T} `{EqDecision T} : EqDecision (XY T).
Proof. solve_decision. Defined.
#[global] Instance Crop_eq_dec : EqDecision Crop.
Proof. solve_decision. Defined.
#[global] Instance BackgroundConfiguration_eq_dec : EqDecision BackgroundConfiguration.
Proof. solve_decision. Defined.
#[global] Instance CursorType_eq_dec : EqDecision CursorType.
Proof. solve_decision. Defined.
#[global] Instance CursorConfiguration_eq_dec : EqDecision CursorConfiguration.
Proof. solve_decision. Defined.
#[global] Instance HotkeysConfiguration_eq_dec : EqDecision HotkeysConfiguration.
Proof. solve_decision. Defined.
#[global] Instance ProjectConfiguration_eq_dec : EqDecision ProjectConfiguration.
Proof. solve_decision. Defined.

(** ** The tagged unions on the wire

    The JSON value of each union of tagged objects the module declares,
    with the tag and the fields of its type. *)

#[global] Instance Serialize_bool : Serialize bool := JsBoolean.

(** A tuple type [[number, number, number]] is a three-element array. *)
#[global] Instance Serialize_triple : Serialize (number * number * number) :=
  fun t => match t with (a, b, c) => JsArray [to_js a; to_js b; to_js c] end.

#[global] Instance Serialize_RenderProgress : Serialize RenderProgress :=
  fun m => match m with
           | Starting total_frames =>
               JsObject [("type", JsString "Starting"); ("total_frames", to_js total_frames)]
           | EstimatedTotalFrames total_frames =>
               JsObject [("type", JsString "EstimatedTotalFrames");
                         ("total_frames", to_js total_frames)]
           | FrameRendered current_frame =>
               JsObject [("type", JsString "FrameRendered");
                         ("current_frame", to_js current_frame)]
           end.

#[global] Instance Serialize_BackgroundSource : Serialize BackgroundSource :=
  fun b => match b with
           | wallpaper id => JsObject [("type", JsString "wallpaper"); ("id", to_js id)]
           | image path => JsObject [("type", JsString "image"); ("path", to_js path)]
           | color value => JsObject [("type", JsString "color"); ("value", to_js value)]
           | gradient from to =>
               JsObject [("type", JsString "gradient"); ("from", to_js from); ("to", to_js to)]
           end.

#[global] Instance Serialize_CaptureTarget : Serialize CaptureTarget :=
  fun t => match t with
           | CaptureTarget_screen => JsObject [("type", JsString "screen")]
           | CaptureTarget_window id => JsObject [("type", JsString "window"); ("id", to_js id)]
           end.

(** [({ os: "macOS" } & MacOSPermissionsCheck) | { os: "other" }]: the
    intersection has the fields of both sides. *)
#[global] Instance Serialize_OSPermissionsCheck : Serialize OSPermissionsCheck :=
  fun c => match c with
           | os_macOS check =>
               JsObject [("os", JsString "macOS");
                         ("screenRecording", to_js (screenRecording check))]
           | os_other => JsObject [("os", JsString "other")]
           end.


(** ** user-defined events

    [events = __makeEvents__({ editorStateChanged: "editor-state-changed", .. })].
    The functions the proxies hand out call [TAURI_API_EVENT] or a window,
    both outside the module: a function is modelled by the call it makes
    when applied to its argument. *)

Module Events.

(** Where a call goes: the module [@tauri-apps/api/event], or the window
    the event object was applied to. *)
Variant Bus : Type :=
| TAURI_API_EVENT
| WebviewWindow (window : JsValue).

Variant Command : Set := listen | once | emit.

(** [bus.command(name, arg)]. *)
Record Call : Type :=
  { bus : Bus; command : Command; name : JsValue; arg : JsValue }.

(** The own properties of an object literal: of two entries with the same
    key the later one stands. *)
Definition own {A} (literal : list (string * A)) : gmap string A :=
  list_to_map (reverse literal).

Section Proxy.
(** The properties an object literal inherits: those of [Object.prototype]. *)
Variable Object_prototype : string -> option JsValue.

(** [mappings[event]]: an own property, else an inherited one, else
    [undefined]. *)
Definition property (mappings : list (string * string)) (event : string) : JsValue :=
  match own mappings !! event with
  | Some name => JsString name
  | None => default JsUndefined (Object_prototype event)
  end.

(** The [get] trap of the inner proxy: the [switch] has three cases and no
    default, so any other property is [undefined]. *)
Definition get (name : JsValue) (command : string) : option (JsValue -> Call) :=
  if decide (command = "listen") then
    Some (fun arg => {| bus := TAURI_API_EVENT; command := listen; name := name; arg := arg |})
  else if decide (command = "once") then
    Some (fun arg => {| bus := TAURI_API_EVENT; command := once; name := name; arg := arg |})
  else if decide (command = "emit") then
    Some (fun arg => {| bus := TAURI_API_EVENT; command := emit; name := name; arg := arg |})
  else None.

(** The [apply] trap of the inner proxy: the object literal
    [{ listen, once, emit }] bound to [window]. *)
Definition apply (name : JsValue) (window : JsValue) : list (string * (JsValue -> Call)) :=
  [("listen", fun arg => {| bus := WebviewWindow window; command := listen;
                            name := name; arg := arg |});
   ("once", fun arg => {| bus := WebviewWindow window; command := once;
                          name := name; arg := arg |});
   ("emit", fun arg => {| bus := WebviewWindow window; command := emit;
                          name := name; arg := arg |})].

(** What the [get] trap of the outer proxy returns for [event]: the inner
    proxy, given by its two traps. *)
Record EventObj : Type :=
  { on_get : string -> option (JsValue -> Call);
    on_apply : JsValue -> list (string * (JsValue -> Call)) }.

Definition __makeEvents__ (mappings : list (string * string)) (event : string) : EventObj :=
  let name := property mappings event in
  {| on_get := get name; on_apply := apply name |}.

(** The literal [events] is made from. *)
Definition mappings : list (string * string) :=
  [("editorStateChanged", "editor-state-changed");
   ("newRecordingAdded", "new-recording-added");
   ("recordingOptionsChanged", "recording-options-changed");
   ("renderFrameEvent", "render-frame-event");
   ("showCapturesPanel", "show-captures-panel")].

Definition events : string -> EventObj := __makeEvents__ mappings.

End Proxy.

(** A prototype with two of the properties of [Object.prototype]; the
    functions they hold are stood for by empty objects. *)
Definition sample_prototype (key : string) : option JsValue :=
  if decide (key = "toString") then Some (JsObject [])
  else if decide (key = "hasOwnProperty") then Some (JsObject [])
  else None.

End Events.

(** * The backend behind the bridge

    The bindings only forward: what [render_to_file],
    [create_editor_instance], [set_playhead_position] and [stop_recording]
    do is decided by the backend, whose code is not part of this module.
    The three models below follow the specification of
    the Render Engine, of the Editor Instance and of the Recording Session. *)

(** Frame counts and frame indices are natural numbers; on the wire they
    are [number]s. *)
Definition frame_number (i : nat) : number := inject_Z (Z.of_nat i).

Module RenderEngine.

(** Modelled from the spec: how a render job ends (the backend's
    [render_to_file] is missing): with success, with [RenderFailed(reason)],
    or cancelled. *)
Variant Outcome : Type :=
| Success
| RenderFailed (reason : string)
| Cancelled.

(** Modelled from the spec: what reaches a running job from outside during
    one frame-processing unit (the backend's cancellation signal and encoder
    are missing): nothing, the cancellation signal, or an encoder or
    compositing failure. *)
Variant Disturbance : Type :=
| Undisturbed
| CancelSignal
| Failure (reason : string).

(** Modelled from the spec: the stages of a job (the backend's render loop
    is missing).  [Revising pending]: [Starting] is out and the revised
    estimates [pending] are still to be announced; [Encoding next]: the
    frames below [next] are durably encoded. *)
Variant Phase : Type :=
| Revising (pending : list nat)
| Encoding (next : nat)
| Terminated (o : Outcome).

Section Engine.
Context {Frame : Type}.

(** Modelled from the spec: a render job (the backend's [render_to_file] is
    missing): the final output path and the temporary path it writes to, the
    total frame count estimated from the display track's duration and the
    target frame rate, the revisions of that estimate, the composited frame
    of every output index, and what disturbs the job at each processing
    unit. *)
Record Job : Type :=
  { outputPath : string;
    temporaryPath : string;
    estimate : nat;
    revisions : list nat;
    composited : nat -> Frame;
    disturbance : nat -> Disturbance }.

(** Modelled from the spec: the state of a running job (the backend's
    render loop is missing): its stage, the total most recently announced,
    the files on disk, the progress events sent so far on the channel
    (oldest first), and the number of processing units spent. *)
Record State : Type :=
  { phase : Phase;
    total : nat;
    files : gmap string (list Frame);
    channel : list RenderProgress;
    clock : nat }.

(** Modelled from the spec: the start of [render] (the backend's
    [render_to_file] is missing): "emit Starting{estimate} immediately"; the
    output is written to a temporary path. *)
Definition start (job : Job) (fs : gmap string (list Frame)) : State :=
  {| phase := Revising (revisions job);
     total := estimate job;
     files := <[temporaryPath job := []]> fs;
     channel := [Starting (frame_number (estimate job))];
     clock := 0 |}.

(** Modelled from the spec: leaving a job early (the backend's cancellation
    and failure paths are missing): the temporary output is cleaned up
    before the outcome is reported. *)
Definition abandon (job : Job) (o : Outcome) (s : State) : State :=
  {| phase := Terminated o;
     total := total s;
     files := delete (temporaryPath job) (files s);
     channel := channel s;
     clock := S (clock s) |}.

(** Modelled from the spec: one undisturbed processing unit (the backend's
    render loop is missing).  A revised estimate is announced with
    [EstimatedTotalFrames] before any frame; frame [i] is composited,
    encoded into the temporary file, and then reported with
    [FrameRendered{i}]; after the last frame the temporary file is renamed
    to the output path. *)
Definition advance (job : Job) (s : State) : State :=
  match phase s with
  | Revising (t :: pending) =>
      {| phase := Revising pending;
         total := t;
         files := files s;
         channel := channel s ++ [EstimatedTotalFrames (frame_number t)];
         clock := S (clock s) |}
  | Revising [] =>
      {| phase := Encoding 0;
         total := total s;
         files := files s;
         channel := channel s;
         clock := S (clock s) |}
  | Encoding i =>
      if decide (i < total s) then
        {| phase := Encoding (S i);
           total := total s;
           files := alter (fun written => written ++ [composited job i])
                          (temporaryPath job) (files s);
           channel := channel s ++ [FrameRendered (frame_number i)];
           clock := S (clock s) |}
      else
        match files s !! temporaryPath job with
        | Some written =>
            {| phase := Terminated Success;
               total := total s;
               files := <[outputPath job := written]> (delete (temporaryPath job) (files s));
               channel := channel s;
               clock := S (clock s) |}
        | None => abandon job (RenderFailed "temporary output is missing") s
        end
  | Terminated _ => s
  end.

(** Modelled from the spec: one processing unit of a job (the backend's
    render loop is missing): the cancellation signal and failures are
    observed at every unit, "within one frame-processing unit of latency". *)
Definition step (job : Job) (s : State) : State :=
  match phase s with
  | Terminated _ => s
  | _ =>
      match disturbance job (clock s) with
      | CancelSignal => abandon job Cancelled s
      | Failure reason => abandon job (RenderFailed reason) s
      | Undisturbed => advance job s
      end
  end.

(** Modelled from the spec: the job after [n] processing units (the
    backend's render loop is missing). *)
Definition run (job : Job) (n : nat) (s : State) : State := Nat.iter n (step job) s.

End Engine.

Arguments Job : clear implicits.
Arguments State : clear implicits.

(** The progress stream that announces [e], then the revisions [rs], then
    reports the frames [0 .. k-1] one by one. *)
Definition progress_stream (e : nat) (rs : list nat) (k : nat) : list RenderProgress :=
  Starting (frame_number e)
  :: map (fun t => EstimatedTotalFrames (frame_number t)) rs
  ++ map (fun i => FrameRendered (frame_number i)) (seq 0 k).

(** The total most recently announced by [Starting{e}] and the revisions [rs]. *)
Definition last_announced (e : nat) (rs : list nat) : nat := List.last rs e.



(** The [current_frame] values a stream reports, in the order of the
    stream. *)
Definition reported_frames (stream : list RenderProgress) : list number :=
  omap (fun m => match m with FrameRendered f => Some f | _ => None end) stream.

Section Invariants.
Context {Frame : Type}.



(** The processing units a job can still take. *)
Definition remaining (s : State Frame) : nat :=
  match phase s with
  | Revising pending => length pending + 2 + List.last pending (total s)
  | Encoding next => 1 + (total s - next)
  | Terminated _ => 0
  end.

End Invariants.


(** A job of ten frames that nothing disturbs. *)
Definition quiet_job : Job nat :=
  {| outputPath := "out.mp4";
     temporaryPath := "out.mp4.part";
     estimate := 10;
     revisions := [];
     composited := fun i => i;
     disturbance := fun _ => Undisturbed |}.

End RenderEngine.

Module Editor.

(** Modelled from the spec: a persisted Recording (the backend's recording
    store is missing): the metadata of its tracks, the saved Project when
    there is one, and its directory. *)
Record Recording : Type :=
  { tracks : ProjectRecordings;
    savedProject : option ProjectConfiguration;
    directory : string }.

(** Modelled from the spec: an Editor Instance (the backend's editor is
    missing): the loaded recording, the playhead, the active Project, which
    starts as the saved one, the address of its playback socket, whether the
    playback loop runs, and the indices of the frames pushed to the
    consumers so far (oldest first). *)
Record EditorInstance : Type :=
  { loaded : Recording;
    playhead : nat;
    activeProject : option ProjectConfiguration;
    socket : string;
    playing : bool;
    streamed : list nat }.

(** Modelled from the spec: the backend state the editor commands work on
    (the backend's registries are missing): the recordings by [videoId] and
    the one Editor Instance per [videoId]. *)
Record Backend : Type :=
  { library : gmap string Recording;
    instances : gmap string EditorInstance }.

(** Modelled from the spec: the [NotFound] failure (the backend's error
    type is missing); the binding types the error of
    [createEditorInstance] as a string. *)
Definition NotFound : JsValue := JsString "NotFound".

(** Modelled from the spec: "clamps to [0, totalFrames-1]" (the backend's
    [set_playhead_position] is missing). *)
Definition clamp (totalFrames : nat) (frameNumber : Z) : nat :=
  Z.to_nat (Z.max 0 (Z.min frameNumber (Z.of_nat totalFrames - 1))).

(** A frame number arrives as a [number]; its integer part is the frame. *)
Definition frame_of_number (frameNumber : number) : Z := Qfloor frameNumber.

Section Create.
(** The address of the playback socket of a [videoId], the duration of a
    recording and its total frame count, none of which the specification
    fixes. *)
Variable socket_address : string -> string.
Variable duration_of : ProjectRecordings -> number.
Variable frame_count : ProjectRecordings -> nat.

(** Modelled from the spec: opening an Editor Instance (the backend's
    [create_editor_instance] is missing): "loads the Recording's metadata
    and, if present, its saved Project as the initial active Project;
    exposes a playback-socket address". *)
Definition open_instance (videoId : string) (r : Recording) : EditorInstance :=
  {| loaded := r;
     playhead := 0;
     activeProject := savedProject r;
     socket := socket_address videoId;
     playing := false;
     streamed := [] |}.

(** Modelled from the spec: the serialized form of an instance (the
    backend's serializer is missing): "a playback-stream address, duration,
    saved project if any, and constituent track metadata". *)
Definition serialize (i : EditorInstance) : SerializedEditorInstance :=
  {| framesSocketUrl := socket i;
     recordingDuration := duration_of (tracks (loaded i));
     savedProjectConfig := savedProject (loaded i);
     recordings := tracks (loaded i);
     Instance_path := directory (loaded i) |}.

(** Modelled from the spec: [create(videoId) -> handle or NotFound] (the
    backend's [create_editor_instance] is missing).  A second instance for
    the same [videoId] supersedes the first. *)
Definition create (videoId : string) : Promise Backend SerializedEditorInstance :=
  fun b =>
    match library b !! videoId with
    | None => (Rejected NotFound, b)
    | Some r =>
        let i := open_instance videoId r in
        (Fulfilled (serialize i),
         {| library := library b; instances := <[videoId := i]> (instances b) |})
    end.

(** The total frame count of the recording an instance has loaded. *)
Definition totalFrames (i : EditorInstance) : nat := frame_count (tracks (loaded i)).

(** Modelled from the spec: [seek(frameNumber)] (the backend's
    [set_playhead_position] is missing): the playhead moves to the clamped
    frame; the loop, when it runs, is left running. *)
Definition seek (frameNumber : Z) (i : EditorInstance) : EditorInstance :=
  {| loaded := loaded i;
     playhead := clamp (totalFrames i) frameNumber;
     activeProject := activeProject i;
     socket := socket i;
     playing := playing i;
     streamed := streamed i |}.

(** Modelled from the spec: [play()] with a Project (the backend's
    [start_playback] is missing). *)
Definition play (project : ProjectConfiguration) (i : EditorInstance) : EditorInstance :=
  {| loaded := loaded i;
     playhead := playhead i;
     activeProject := Some project;
     socket := socket i;
     playing := true;
     streamed := streamed i |}.

(** Modelled from the spec: [stop()] (the backend's [stop_playback] is
    missing): it halts the loop. *)
Definition stop (i : EditorInstance) : EditorInstance :=
  {| loaded := loaded i;
     playhead := playhead i;
     activeProject := activeProject i;
     socket := socket i;
     playing := false;
     streamed := streamed i |}.

(** Modelled from the spec: one tick of the playback loop (the backend's
    loop is missing): it "composites the frame at the current playhead ...
    and pushes it to connected consumers, then advances the playhead; at
    end-of-track, playback stops automatically". *)
Definition tick (i : EditorInstance) : EditorInstance :=
  if playing i then
    if decide (playhead i < totalFrames i) then
      {| loaded := loaded i;
         playhead := S (playhead i);
         activeProject := activeProject i;
         socket := socket i;
         playing := true;
         streamed := streamed i ++ [playhead i] |}
    else stop i
  else i.

(** A command on the instance of a [videoId]: [NotFound] when there is
    none. *)
Definition on_instance (videoId : string) (f : EditorInstance -> EditorInstance)
  : Promise Backend JsValue :=
  fun b =>
    match instances b !! videoId with
    | None => (Rejected NotFound, b)
    | Some i =>
        (Fulfilled JsNull,
         {| library := library b; instances := <[videoId := f i]> (instances b) |})
    end.

(** The tick of the loop of one instance, as the backend state sees it. *)
Definition tick_instance (videoId : string) (b : Backend) : Backend :=
  {| library := library b; instances := alter tick videoId (instances b) |}.

(** The rest of the backend: every command the editor does not serve. *)
Variable collaborators : forall T : Type, Cmd T -> Promise Backend T.

(** Modelled from the spec: the backend as [TAURI_INVOKE] reaches it (the
    backend's command handlers are missing). *)
Definition invoke (T : Type) (c : Cmd T) : Promise Backend T :=
  match c in Cmd T0 return Promise Backend T0 with
  | create_editor_instance videoId => create videoId
  | start_playback videoId project => on_instance videoId (play project)
  | stop_playback videoId => on_instance videoId stop
  | set_playhead_position videoId frameNumber =>
      on_instance videoId (seek (frame_of_number frameNumber))
  | c' => collaborators _ c'
  end.

End Create.

End Editor.

Module Session.

(** Modelled from the spec: the states of the Recording Session (the
    backend's session is missing): [Idle -> Starting -> Active -> Stopping
    -> Finalized], and [Aborted], reachable from [Starting] or [Active].
    An active session has its [InProgressRecording]; a finalized one its
    [videoId]; an aborted one the reason, and whether it had been active. *)
Variant State : Type :=
| Idle
| Starting
| Active (recording : InProgressRecording)
| Stopping (recording : InProgressRecording)
| Finalized (videoId : string)
| Aborted (reason : string) (was_active : bool).

(** Modelled from the spec: the backend state the recording commands work
    on (the backend's session registry is missing): the one session and the
    recording options in force. *)
Record Backend : Type :=
  { session : State;
    options : RecordingOptions }.

Section Machine.
(** What the capture devices answer: whether the options still resolve, and
    what opening the sources gives, the recording in progress or the reason
    of the failure; and the [videoId] a finished recording is given. *)
Variable resolves : RecordingOptions -> bool.
Variable open_sources : RecordingOptions -> InProgressRecording + string.
Variable video_id : InProgressRecording -> string.

(** The rest of the backend, and the requests in states for which the
    specification says nothing. *)
Variable collaborators : forall T : Type, Cmd T -> Promise Backend T.

(** Modelled from the spec: a start request (the backend's
    [start_recording] is missing).  [Idle -> Starting]: options that no
    longer resolve fail with [InvalidOptions] and the session remains
    [Idle]; [Starting -> Active] when every source opens, [Aborted] with
    the reason of the device otherwise. *)
Definition start : Promise Backend TsNull :=
  fun b =>
    match session b with
    | Idle =>
        if resolves (options b) then
          match open_sources (options b) with
          | inl recording =>
              (Fulfilled null, {| session := Active recording; options := options b |})
          | inr reason =>
              (Rejected (JsString reason),
               {| session := Aborted reason false; options := options b |})
          end
        else (Rejected (JsString "InvalidOptions"), b)
    | _ => collaborators _ start_recording b
    end.

(** Modelled from the spec: a stop request (the backend's
    [stop_recording] is missing).  [Active -> Stopping -> Finalized]
    produces the persisted Recording and its [videoId]; "a stop request
    while Idle/Finalized is a no-op success (idempotent stop), not an
    error"; "stopping a session that never reached Active is a no-op and
    returns success". *)
Definition stop : Promise Backend TsNull :=
  fun b =>
    match session b with
    | Active recording =>
        (Fulfilled null, {| session := Finalized (video_id recording); options := options b |})
    | Idle | Finalized _ | Starting | Aborted _ false => (Fulfilled null, b)
    | Stopping _ | Aborted _ true => collaborators _ stop_recording b
    end.

(** Modelled from the spec: the recording in progress (the backend's
    [get_current_recording] is missing): the handle "exists only while a
    Recording Session is active". *)
Definition current : Promise Backend (JsonValue (option InProgressRecording)) :=
  fun b =>
    match session b with
    | Active recording | Stopping recording => (Fulfilled (tuple1 (Some recording)), b)
    | _ => (Fulfilled (tuple1 None), b)
    end.

(** Modelled from the spec: the backend as [TAURI_INVOKE] reaches it (the
    backend's command handlers are missing). *)
Definition invoke (T : Type) (c : Cmd T) : Promise Backend T :=
  match c in Cmd T0 return Promise Backend T0 with
  | start_recording => start
  | stop_recording => stop
  | get_current_recording => current
  | c' => collaborators _ c'
  end.

End Machine.

End Session.

(** * Views of the [commands] family and sample values *)

Section Members.
Context {World : Type}.
Variable TAURI_INVOKE : forall T : Type, Cmd T -> Promise World T.

(** The member that invokes [c], when it is declared to return a [Result]. *)
Definition result_member {T} (c : Cmd T) : option (Promise World (Result T JsValue)) :=
  match shape c as s return Promise World (Returns s T) -> option (Promise World (Result T JsValue)) with
  | ResultShape => Some
  | PlainShape | VoidShape => fun _ => None
  end (commands TAURI_INVOKE c).

(** A promise that is never rejected: whatever happens, the caller is
    handed a value. *)
Definition never_rejects {A} (p : Promise World A) : Prop :=
  forall w, exists a, (p w).1 = Fulfilled a.

End Members.

(** The five components the specification lists for a Project. *)
Definition listed_components (p : ProjectConfiguration) :=
  (aspectRatio p, background p, camera p, audio p, cursor p).

(** All the components of the type. *)
Definition components (p : ProjectConfiguration) :=
  (aspectRatio p, background p, camera p, audio p, cursor p, hotkeys p).

(** A backend that rejects every command with [reason]. *)
Definition refusing (reason : JsValue) (T : Type) (_ : Cmd T) : Promise unit T :=
  throw reason.

(** A backend with no recording in progress; it knows no other command. *)
Definition idle (T : Type) (c : Cmd T) : Promise unit T :=
  match c in Cmd T0 return Promise unit T0 with
  | get_current_recording => resolve (tuple1 None)
  | _ => throw (JsString "unknown command")
  end.

Definition sample_project (show_hotkeys : bool) : ProjectConfiguration :=
  {| aspectRatio := None;
     background :=
       {| source := color ((1 # 1)%Q, (1 # 1)%Q, (1 # 1)%Q);
          blur := (0 # 1)%Q; padding := (0 # 1)%Q;
          Background_rounding := (0 # 1)%Q; inset := (0 # 1)%Q; crop := None |};
     camera :=
       {| hide := false; mirror := false;
          Camera_position := {| CameraPosition_x := right; CameraPosition_y := bottom |};
          Camera_rounding := (0 # 1)%Q; shadow := (0 # 1)%Q |};
     audio := {| mute := false; improve := false |};
     cursor := {| hideWhenIdle := false; Cursor_size := (1 # 1)%Q; Cursor_type := pointer |};
     hotkeys := {| show := show_hotkeys |} |}.

Definition sample_channel : TAURI_CHANNEL RenderProgress := {| channel_id := 1 |}.

Definition sample_recording : Editor.Recording :=
  {| Editor.tracks :=
       {| Recordings_display :=
            {| Video_duration := (2 # 1)%Q; Video_width := (1920 # 1)%Q;
               Video_height := (1080 # 1)%Q; fps := (30 # 1)%Q |};
          Recordings_camera := None;
          Recordings_audio := None |};
     Editor.savedProject := None;
     Editor.directory := "recordings/a.cap" |}.

Definition sample_instance : SerializedEditorInstance :=
  {| framesSocketUrl := "ws://localhost:1234";
     recordingDuration := (2 # 1)%Q;
     savedProjectConfig := None;
     recordings := Editor.tracks sample_recording;
     Instance_path := Editor.directory sample_recording |}.

(** An editor on [sample_recording], sixty frames long, playing at frame 5. *)
Definition sample_playing : Editor.EditorInstance :=
  {| Editor.loaded := sample_recording;
     Editor.playhead := 5;
     Editor.activeProject := None;
     Editor.socket := "ws://localhost:1234";
     Editor.playing := true;
     Editor.streamed := [0; 1; 2; 3; 4] |}.

Definition sample_editor : Editor.Backend :=
  {| Editor.library := {[ "a" := sample_recording ]};
     Editor.instances := {[ "a" := sample_playing ]} |}.

Definition sample_editor_invoke : forall T : Type, Cmd T -> Promise Editor.Backend T :=
  Editor.invoke (fun id => String.append "ws://localhost/" id)
    (fun t => Video_duration (Recordings_display t)) (fun _ => 60)
    (fun T _ => throw (JsString "unknown command")).

(** A session that was never started, with the options of a screen-only
    recording, and devices that are all unplugged. *)
Definition sample_session : Session.Backend :=
  {| Session.session := Session.Idle;
     Session.options :=
       {| captureTarget := CaptureTarget_screen; cameraLabel := None;
          audioInputName := None |} |}.

Definition sample_session_invoke : forall T : Type, Cmd T -> Promise Session.Backend T :=
  Session.invoke (fun _ => true) (fun _ => inr "DeviceUnavailable") recordingDir
    (fun T _ => throw (JsString "unknown command")).

(** * The bindings *)

Create HintDb members.
#[global] Hint Unfold
  createCameraWindow listCameras listCaptureWindows listAudioDevices
  showPreviousRecordingsWindow closePreviousRecordingsWindow focusCapturesPanel
  renderToFile startPlayback stopPlayback setPlayheadPosition openInFinder
  saveProjectConfig openEditor openMainWindow openPermissionSettings
  doPermissionsCheck : members.

Create HintDb result_members.
#[global] Hint Unfold
  getRecordingOptions setRecordingOptions startRecording stopRecording
  getPrevRecordings setFakeWindowBounds removeFakeWindow getCurrentRecording
  getRenderedVideo copyFileToPath copyRenderedVideoToClipboard getVideoMetadata
  createEditorInstance : result_members.

Section BindingFacts.
Context {World : Type}.
Variable TAURI_INVOKE : forall T : Type, Cmd T -> Promise World T.

(** The [try]/[catch] block every [Result] member is generated with. *)
Lemma try_catch_block {T} (c : Cmd T) (w : World) :
  try_catch
    (await data <- TAURI_INVOKE T c; resolve (ok data))
    (fun e => if instanceof_Error e then throw e else resolve (error e)) w
  = match TAURI_INVOKE T c w with
    | (Fulfilled v, w') => (Fulfilled (ok v), w')
    | (Rejected e, w') =>
        if instanceof_Error e then (Rejected e, w') else (Fulfilled (error e), w')
    end.
Proof.
  unfold try_catch, awaiting, resolve, throw.
  destruct (TAURI_INVOKE T c w) as [[v | e] w']; [reflexivity |].
  destruct (instanceof_Error e); reflexivity.
Qed.

(** A [Result] member is its [try]/[catch] block. *)
Lemma result_member_block {T} (c : Cmd T) (p : Promise World (Result T JsValue)) :
  result_member TAURI_INVOKE c = Some p ->
  p = try_catch
        (await data <- TAURI_INVOKE T c; resolve (ok data))
        (fun e => if instanceof_Error e then throw e else resolve (error e)).
Proof.
  unfold result_member.
  destruct c; simpl; intros H; try discriminate H; injection H as <-; reflexivity.
Qed.

(** The members of the two other shapes await the call bare. *)
Lemma bare_member_rejects {T} (c : Cmd T) (w w' : World) (e : JsValue) :
  shape c <> ResultShape ->
  TAURI_INVOKE T c w = (Rejected e, w') ->
  commands TAURI_INVOKE c w = (Rejected e, w').
Proof.
  intros Hs Hr.
  destruct c; simpl in *; try (exfalso; apply Hs; reflexivity);
    autounfold with members; unfold awaiting; rewrite Hr; reflexivity.
Qed.

End BindingFacts.

(** The thirteen members declared to return a [Result]. *)
Lemma result_members {World} (TAURI_INVOKE : forall T : Type, Cmd T -> Promise World T) :
  result_member TAURI_INVOKE get_recording_options = Some (getRecordingOptions TAURI_INVOKE)
  /\ (forall options, result_member TAURI_INVOKE (set_recording_options options)
                      = Some (setRecordingOptions TAURI_INVOKE options))
  /\ result_member TAURI_INVOKE start_recording = Some (startRecording TAURI_INVOKE)
  /\ result_member TAURI_INVOKE stop_recording = Some (stopRecording TAURI_INVOKE)
  /\ result_member TAURI_INVOKE get_prev_recordings = Some (getPrevRecordings TAURI_INVOKE)
  /\ (forall name bounds, result_member TAURI_INVOKE (set_fake_window_bounds name bounds)
                          = Some (setFakeWindowBounds TAURI_INVOKE name bounds))
  /\ (forall name, result_member TAURI_INVOKE (remove_fake_window name)
                   = Some (removeFakeWindow TAURI_INVOKE name))
  /\ result_member TAURI_INVOKE get_current_recording = Some (getCurrentRecording TAURI_INVOKE)
  /\ (forall videoId project, result_member TAURI_INVOKE (get_rendered_video videoId project)
                              = Some (getRenderedVideo TAURI_INVOKE videoId project))
  /\ (forall src dst, result_member TAURI_INVOKE (copy_file_to_path src dst)
                      = Some (copyFileToPath TAURI_INVOKE src dst))
  /\ (forall videoId project,
        result_member TAURI_INVOKE (copy_rendered_video_to_clipboard videoId project)
        = Some (copyRenderedVideoToClipboard TAURI_INVOKE videoId project))
  /\ (forall videoId videoType, result_member TAURI_INVOKE (get_video_metadata videoId videoType)
                                = Some (getVideoMetadata TAURI_INVOKE videoId videoType))
  /\ (forall videoId, result_member TAURI_INVOKE (create_editor_instance videoId)
                      = Some (createEditorInstance TAURI_INVOKE videoId)).
Proof. repeat split. Qed.

(** The operations the specification names for render, playback, seek and
    project save are declared [Promise<void>]. *)
Lemma void_members outputPath videoId project progressChannel frameNumber :
  shape (render_to_file outputPath videoId project progressChannel) = VoidShape
  /\ shape (start_playback videoId project) = VoidShape
  /\ shape (stop_playback videoId) = VoidShape
  /\ shape (set_playhead_position videoId frameNumber) = VoidShape
  /\ shape (save_project_config videoId project) = VoidShape.
Proof. repeat split. Qed.

(** C9. Every member of [commands] that returns a [Result] hands the
    caller [{ status: "ok", data: v }] when the invoke resolves with [v],
    rethrows the rejection when it is an instance of [Error] (the returned
    promise rejects with it), and hands the caller
    [{ status: "error", error: e }] for any other rejection [e]. *)
Theorem result_binding_outcomes {World} (TAURI_INVOKE : forall T : Type, Cmd T -> Promise World T)
    {T} (c : Cmd T) (p : Promise World (Result T JsValue)) (w : World) :
  result_member TAURI_INVOKE c = Some p ->
  match TAURI_INVOKE T c w with
  | (Fulfilled v, w') => p w = (Fulfilled (ok v), w')
  | (Rejected e, w') =>
      if instanceof_Error e then p w = (Rejected e, w')
      else p w = (Fulfilled (error e), w')
  end.
Proof.
  intros Hp.
  rewrite (result_member_block TAURI_INVOKE c p Hp), try_catch_block.
  destruct (TAURI_INVOKE T c w) as [[v | e] w']; [reflexivity |].
  destruct (instanceof_Error e); reflexivity.
Qed.

(** [stopRecording] against a backend that rejects with a string: the
    caller receives the error value. *)
Lemma result_binding_outcomes_witness :
  result_member (refusing (JsString "no recording")) stop_recording
  = Some (stopRecording (refusing (JsString "no recording")))
  /\ stopRecording (refusing (JsString "no recording")) tt
     = (Fulfilled (error (JsString "no recording")), tt).
Proof.
  split; [reflexivity |].
  exact (result_binding_outcomes (refusing (JsString "no recording")) stop_recording
           (stopRecording (refusing (JsString "no recording"))) tt eq_refl).
Defined.

(** [startRecording] against a backend that rejects with an [Error]: the
    promise of the binding rejects. *)
Example startRecording_rethrows :
  startRecording (refusing (JsError "TypeError" "window.__TAURI_INTERNALS__ is undefined")) tt
  = (Rejected (JsError "TypeError" "window.__TAURI_INTERNALS__ is undefined"), tt).
Proof. reflexivity. Qed.

(** C6, as stated, fails: [renderToFile] has no [Result], so a failed
    render rejects its promise; and a member with a [Result] rethrows an
    [Error]. *)
Lemma some_failures_are_thrown :
  ~ never_rejects
      (renderToFile (refusing (JsString "RenderFailed: encoder"))
         "out.mp4" "video" (sample_project false) sample_channel)
  /\ ~ never_rejects (startRecording (refusing (JsError "TypeError" "bridge is missing"))).
Proof.
  split; intros H; destruct (H tt) as [a Ha]; discriminate Ha.
Qed.

(** C6, amended. A rejection [e] of the invoke reaches the caller of every
    member.  A member that returns a [Result] reports it as the value
    [{ status: "error", error: e }] unless [e] is an instance of [Error],
    which it rethrows; every other member (among them [renderToFile],
    [startPlayback], [stopPlayback], [setPlayheadPosition] and
    [saveProjectConfig]) rejects its own promise with [e]. *)
Theorem failures_reach_the_caller {World}
    (TAURI_INVOKE : forall T : Type, Cmd T -> Promise World T)
    {T} (c : Cmd T) (w w' : World) (e : JsValue) :
  TAURI_INVOKE T c w = (Rejected e, w') ->
  match shape c with
  | ResultShape =>
      exists p, result_member TAURI_INVOKE c = Some p
                /\ p w = if instanceof_Error e then (Rejected e, w')
                         else (Fulfilled (error e), w')
  | PlainShape | VoidShape => commands TAURI_INVOKE c w = (Rejected e, w')
  end.
Proof.
  intros Hr.
  destruct c; lazy beta iota delta [shape];
    first
      [ match type of Hr with
        | TAURI_INVOKE _ ?c0 _ = _ =>
            exact (bare_member_rejects TAURI_INVOKE c0 w w' e ltac:(discriminate) Hr)
        end
      | eexists; split; [reflexivity |];
        unfold commands; autounfold with result_members;
        rewrite try_catch_block, Hr; destruct (instanceof_Error e); reflexivity ].
Qed.

(** A failed render: the promise of [renderToFile] rejects with the reason. *)
Lemma failures_reach_the_caller_witness :
  renderToFile (refusing (JsString "RenderFailed: encoder"))
    "out.mp4" "video" (sample_project false) sample_channel tt
  = (Rejected (JsString "RenderFailed: encoder"), tt).
Proof.
  exact (failures_reach_the_caller (refusing (JsString "RenderFailed: encoder"))
           (render_to_file "out.mp4" "video" (sample_project false) sample_channel)
           tt tt (JsString "RenderFailed: encoder") eq_refl).
Defined.

(** C8, as stated, fails: two Projects can agree on the five listed
    components and differ, in [hotkeys]. *)
Lemma hotkeys_is_a_component :
  ~ (forall p q : ProjectConfiguration, listed_components p = listed_components q -> p = q).
Proof.
  intros H.
  specialize (H (sample_project true) (sample_project false) eq_refl).
  discriminate H.
Qed.

(** C8, amended. A [ProjectConfiguration] consists of exactly six
    components: the nullable aspect ratio, the background (source, blur,
    padding, rounding, inset, crop), the camera overlay (hide, mirror,
    position, rounding, shadow), the audio treatment (mute, improve), the
    cursor styling (hideWhenIdle, size, type) and the hotkeys configuration
    (show).  It is a value: two configurations with equal components are
    equal, any six components make one, and equality of configurations is
    decided by comparing them.  The saved configuration of a serialized
    editor instance may be absent. *)
Theorem ProjectConfiguration_components :
  (forall p q : ProjectConfiguration, components p = components q -> p = q)
  /\ (forall a b c d e h, components (Build_ProjectConfiguration a b c d e h) = (a, b, c, d, e, h))
  /\ (forall b : BackgroundConfiguration,
        b = {| source := source b; blur := blur b; padding := padding b;
               Background_rounding := Background_rounding b; inset := inset b;
               crop := crop b |})
  /\ (forall c : CameraConfiguration,
        c = {| hide := hide c; mirror := mirror c; Camera_position := Camera_position c;
               Camera_rounding := Camera_rounding c; shadow := shadow c |})
  /\ (forall a : AudioConfiguration, a = {| mute := mute a; improve := improve a |})
  /\ (forall c : CursorConfiguration,
        c = {| hideWhenIdle := hideWhenIdle c; Cursor_size := Cursor_size c;
               Cursor_type := Cursor_type c |})
  /\ (forall h : HotkeysConfiguration, h = {| show := show h |})
  /\ (forall p : ProjectConfiguration, aspectRatio p = None \/ exists r, aspectRatio p = Some r)
  /\ (forall p q : ProjectConfiguration, p = q \/ p <> q)
  /\ (exists i : SerializedEditorInstance, savedProjectConfig i = None).
Proof.
  repeat split.
  - intros [a b c d e h] [a' b' c' d' e' h']; unfold components; simpl.
    intros H; injection H as -> -> -> -> -> ->; reflexivity.
  - intros []; reflexivity.
  - intros []; reflexivity.
  - intros []; reflexivity.
  - intros []; reflexivity.
  - intros []; reflexivity.
  - intros p; destruct (aspectRatio p); eauto.
  - intros p q; destruct (decide (p = q)); auto.
  - exists sample_instance; reflexivity.
Qed.

(** A one-element array is never the element itself when the element is a
    nullable recording. *)
Lemma tuple_is_not_its_item (current : option InProgressRecording) :
  to_js (tuple1 current) <> to_js current.
Proof. destruct current as [r |]; discriminate. Qed.

(** C10. On success [getCurrentRecording] hands the caller what the
    backend answered, untouched, and that value is a one-element array
    around the nullable recording: it is never the recording or [null]
    itself, and with no recording in progress the result is
    [{ status: "ok", data: [null] }]. *)
Theorem getCurrentRecording_wraps_in_array {World}
    (TAURI_INVOKE : forall T : Type, Cmd T -> Promise World T)
    (w w' : World) (data : JsonValue (option InProgressRecording)) :
  getCurrentRecording TAURI_INVOKE w = (Fulfilled (ok data), w') ->
  TAURI_INVOKE _ get_current_recording w = (Fulfilled data, w')
  /\ exists current : option InProgressRecording,
       data = tuple1 current
       /\ to_js (ok (E := JsValue) data)
          = JsObject [("status", JsString "ok"); ("data", JsArray [to_js current])]
       /\ to_js data <> to_js current
       /\ (current = None ->
           to_js (ok (E := JsValue) data)
           = JsObject [("status", JsString "ok"); ("data", JsArray [JsNull])]
           /\ to_js data <> JsNull).
Proof.
  unfold getCurrentRecording. rewrite try_catch_block.
  destruct (TAURI_INVOKE _ get_current_recording w) as [[v | e] w0].
  - intros [= -> ->]. split; [reflexivity |].
    destruct data as [current]. exists current.
    split; [reflexivity |]. split; [reflexivity |].
    split; [apply tuple_is_not_its_item |].
    intros ->. split; [reflexivity | discriminate].
  - destruct (instanceof_Error e); discriminate.
Qed.

(** No recording in progress: the caller receives [[null]]. *)
Lemma getCurrentRecording_wraps_in_array_witness :
  getCurrentRecording idle tt = (Fulfilled (ok (tuple1 None)), tt)
  /\ to_js (ok (E := JsValue) (tuple1 (@None InProgressRecording)))
     = JsObject [("status", JsString "ok"); ("data", JsArray [JsNull])].
Proof.
  split; [reflexivity |].
  destruct (getCurrentRecording_wraps_in_array idle tt tt (tuple1 None) eq_refl)
    as [_ [current [Hc [_ [_ Hnull]]]]].
  injection Hc as <-.
  exact (proj1 (Hnull eq_refl)).
Defined.

(** * More on the bindings: the whole [commands] family *)

Section FamilyFacts.
Context {World : Type}.
Variable TAURI_INVOKE : forall T : Type, Cmd T -> Promise World T.

(** Every member, whatever its shape, is one of two programs around its
    invoke. *)
Lemma member_settles {T} (c : Cmd T) (w : World) :
  match TAURI_INVOKE T c w with
  | (Fulfilled v, w') => exists r, commands TAURI_INVOKE c w = (Fulfilled r, w')
  | (Rejected e, w') =>
      commands TAURI_INVOKE c w = (Rejected e, w')
      \/ (instanceof_Error e = false
          /\ exists r, commands TAURI_INVOKE c w = (Fulfilled r, w'))
  end.
Proof.
  destruct c; unfold commands;
    first
      [ progress autounfold with result_members; rewrite try_catch_block;
        destruct (TAURI_INVOKE _ _ w) as [[v | e] w']; [eauto |];
        destruct (instanceof_Error e); eauto
      | autounfold with members; unfold awaiting, resolve;
        destruct (TAURI_INVOKE _ _ w) as [[v | e] w']; eauto ].
Qed.

(** The bindings have no state of their own: the world after a member has
    settled is the world its one invoke left, for all thirty members and
    whether the invoke was fulfilled or rejected. *)
Theorem members_leave_the_world_to_the_invoke {T} (c : Cmd T) (w : World) :
  (commands TAURI_INVOKE c w).2 = (TAURI_INVOKE T c w).2.
Proof.
  pose proof (member_settles c w) as H.
  destruct (TAURI_INVOKE T c w) as [[v | e] w']; simpl.
  - destruct H as [r ->]. reflexivity.
  - destruct H as [-> | [_ [r ->]]]; reflexivity.
Qed.

(** No member invents an outcome: a fulfilled invoke is never turned into a
    rejection, and a member rejects only with the very value its invoke was
    rejected with. *)
Theorem members_invent_no_outcome {T} (c : Cmd T) (w : World) :
  (forall v w', TAURI_INVOKE T c w = (Fulfilled v, w') ->
                exists r, commands TAURI_INVOKE c w = (Fulfilled r, w'))
  /\ (forall e w', commands TAURI_INVOKE c w = (Rejected e, w') ->
                  TAURI_INVOKE T c w = (Rejected e, w')).
Proof.
  pose proof (member_settles c w) as H.
  destruct (TAURI_INVOKE T c w) as [[v | e] w0]; split.
  - intros v' w' [= <- <-]. exact H.
  - intros e w' He. destruct H as [r Hr]. rewrite Hr in He. discriminate He.
  - intros v w' Hv. discriminate Hv.
  - intros e' w' He. destruct H as [Hr | [_ [r Hr]]]; rewrite Hr in He.
    + injection He as <- <-. reflexivity.
    + discriminate He.
Qed.

(** The outcome of a [Result] member tells what the invoke did: [ok] data
    is the value the invoke was fulfilled with; an [error] is the value it
    was rejected with and is never an instance of [Error]; and the promise
    rejects only with an instance of [Error], the one the invoke threw. *)
Theorem result_member_channels {T} (c : Cmd T) (p : Promise World (Result T JsValue))
    (w : World) :
  result_member TAURI_INVOKE c = Some p ->
  (forall v w', p w = (Fulfilled (ok v), w') -> TAURI_INVOKE T c w = (Fulfilled v, w'))
  /\ (forall e w', p w = (Fulfilled (error e), w') ->
                  instanceof_Error e = false /\ TAURI_INVOKE T c w = (Rejected e, w'))
  /\ (forall e w', p w = (Rejected e, w') ->
                  instanceof_Error e = true /\ TAURI_INVOKE T c w = (Rejected e, w')).
Proof.
  intros Hp. rewrite (result_member_block TAURI_INVOKE c p Hp), try_catch_block.
  destruct (TAURI_INVOKE T c w) as [[v | e] w0].
  - split; [| split]; intros ? ? H; try discriminate H.
    injection H as <- <-. reflexivity.
  - destruct (instanceof_Error e) eqn:He; (split; [| split]); intros ? ? H;
      try discriminate H; injection H as <- <-; auto.
Qed.

(** A [Result] member can be awaited outside any [try] block exactly when
    its command is never rejected with an instance of [Error]. *)
Theorem result_member_never_rejects {T} (c : Cmd T) (p : Promise World (Result T JsValue)) :
  result_member TAURI_INVOKE c = Some p ->
  never_rejects p
  <-> (forall w e w', TAURI_INVOKE T c w = (Rejected e, w') -> instanceof_Error e = false).
Proof.
  intros Hp. rewrite (result_member_block TAURI_INVOKE c p Hp).
  unfold never_rejects. split.
  - intros H w e w' Hr. destruct (H w) as [a Ha].
    rewrite try_catch_block, Hr in Ha.
    destruct (instanceof_Error e); [discriminate Ha | reflexivity].
  - intros H w. rewrite try_catch_block.
    destruct (TAURI_INVOKE T c w) as [[v | e] w'] eqn:Hw; [eauto |].
    rewrite (H w e w' Hw). eauto.
Qed.

(** The other seventeen members have no [try] block: each can be awaited
    outside one exactly when its command is never rejected at all. *)
Theorem bare_member_never_rejects {T} (c : Cmd T) :
  shape c <> ResultShape ->
  never_rejects (commands TAURI_INVOKE c)
  <-> never_rejects (TAURI_INVOKE T c).
Proof.
  intros Hs. unfold never_rejects. split; intros H w.
  - destruct (TAURI_INVOKE T c w) as [[v | e] w'] eqn:Hw; [eauto |].
    destruct (H w) as [a Ha].
    rewrite (bare_member_rejects TAURI_INVOKE c w w' e Hs Hw) in Ha. discriminate Ha.
  - destruct (H w) as [v Hv]. pose proof (member_settles c w) as Hm.
    destruct (TAURI_INVOKE T c w) as [[v' | e] w']; [| discriminate Hv].
    destruct Hm as [r ->]. eauto.
Qed.

(** The four members that return an answer return the answer of the
    backend as it is, and reject as their invoke does. *)
Theorem plain_members_pass_through (w : World) :
  listCameras TAURI_INVOKE w = TAURI_INVOKE _ list_cameras w
  /\ listCaptureWindows TAURI_INVOKE w = TAURI_INVOKE _ list_capture_windows w
  /\ listAudioDevices TAURI_INVOKE w = TAURI_INVOKE _ list_audio_devices w
  /\ doPermissionsCheck TAURI_INVOKE w = TAURI_INVOKE _ do_permissions_check w.
Proof.
  unfold listCameras, listCaptureWindows, listAudioDevices, doPermissionsCheck,
    awaiting, resolve.
  repeat split;
    match goal with
    | |- context [TAURI_INVOKE ?T ?c w] => destruct (TAURI_INVOKE T c w) as [[v | e] w']
    end; reflexivity.
Qed.

End FamilyFacts.

(** [stopRecording] and a backend that rejects with a string: the error
    value is that string, which is no [Error]. *)
Lemma result_member_channels_witness :
  instanceof_Error (JsString "no recording") = false
  /\ refusing (JsString "no recording") _ stop_recording tt
     = (Rejected (JsString "no recording"), tt).
Proof.
  exact (proj1 (proj2 (result_member_channels (refusing (JsString "no recording"))
                         stop_recording (stopRecording (refusing (JsString "no recording")))
                         tt eq_refl))
           (JsString "no recording") tt eq_refl).
Defined.

(** [stopRecording] never rejects against a backend that only ever rejects
    with a string. *)
Lemma result_member_never_rejects_witness :
  never_rejects (stopRecording (refusing (JsString "no recording"))).
Proof.
  apply (result_member_never_rejects (refusing (JsString "no recording")) stop_recording
           (stopRecording (refusing (JsString "no recording"))) eq_refl).
  intros w e w' [= <- _]. reflexivity.
Defined.

(** [openEditor] rejects when its command does. *)
Lemma bare_member_never_rejects_witness :
  ~ never_rejects (openEditor (refusing (JsString "no such recording")) "a").
Proof.
  intros H.
  apply (bare_member_never_rejects (refusing (JsString "no such recording"))
           (open_editor "a") ltac:(discriminate)) in H.
  destruct (H tt) as [v Hv]. discriminate Hv.
Defined.

(** * The [events] proxy *)

Section EventFacts.
Variable Object_prototype : string -> option JsValue.

Local Abbreviation events := (Events.events Object_prototype).

(** The five declared events and their names. *)
Lemma declared_events (event name : string) :
  Events.own Events.mappings !! event = Some name <->
  (event, name) ∈ Events.mappings.
Proof.
  unfold Events.own, Events.mappings. simpl.
  rewrite !lookup_insert_Some, lookup_empty, !elem_of_cons, elem_of_nil.
  split.
  - intros H. repeat (destruct H as [[<- <-] | [_ H]]; [tauto |]). discriminate H.
  - intros H.
    repeat (destruct H as [[= -> ->] | H];
            [repeat (first [left; split; reflexivity | right; split; [discriminate |]]) |]).
    destruct H.
Qed.

(** No two declared events share a name: what is emitted under one key of
    [events] is never delivered to a listener of another. *)
Theorem event_names_distinct (event1 event2 : string) :
  is_Some (Events.own Events.mappings !! event1) ->
  is_Some (Events.own Events.mappings !! event2) ->
  Events.property Object_prototype Events.mappings event1
  = Events.property Object_prototype Events.mappings event2 ->
  event1 = event2.
Proof.
  intros [n1 H1] [n2 H2]. unfold Events.property. rewrite H1, H2. intros [= <-].
  apply declared_events in H1, H2. unfold Events.mappings in H1, H2.
  rewrite !elem_of_cons, elem_of_nil in H1, H2.
  destruct H1 as [H1 | [H1 | [H1 | [H1 | [H1 | []]]]]];
    destruct H2 as [H2 | [H2 | [H2 | [H2 | [H2 | []]]]]];
    simplify_eq; reflexivity.
Qed.

(** The event object offers the same three commands with and without a
    window, and nothing else. *)
Theorem same_three_commands (event command : string) (window : JsValue) :
  (is_Some (Events.on_get (events event) command)
   <-> command ∈ ["listen"; "once"; "emit"])
  /\ (is_Some (Events.own (Events.on_apply (events event) window) !! command)
      <-> command ∈ ["listen"; "once"; "emit"]).
Proof.
  rewrite !elem_of_cons, elem_of_nil. split.
  - unfold Events.events, Events.__makeEvents__, Events.get. simpl.
    repeat case_decide; subst; (split; [intros Hc | intros Hd]);
      first [ solve [eauto 6]
            | destruct Hc as [x Hx]; discriminate Hx
            | intuition congruence ].
  - unfold Events.events, Events.__makeEvents__, Events.apply, Events.own. simpl.
    rewrite !lookup_insert_is_Some, lookup_empty. split.
    + intros Hc. repeat (destruct Hc as [<- | [_ Hc]]; [tauto |]).
      destruct Hc as [x Hx]. discriminate Hx.
    + intros [-> | [-> | [-> | []]]];
        repeat (first [left; reflexivity | right; split; [discriminate |]]).
Qed.

(** Applying an event object to a window changes where its calls go and
    nothing else: the command, the event name and the payload are those of
    the call made without a window, and the name is [mappings[event]]. *)
Theorem window_changes_only_the_bus (event command : string) (window : JsValue)
    (f g : JsValue -> Events.Call) :
  Events.on_get (events event) command = Some f ->
  Events.own (Events.on_apply (events event) window) !! command = Some g ->
  forall arg : JsValue,
    Events.bus (f arg) = Events.TAURI_API_EVENT
    /\ Events.bus (g arg) = Events.WebviewWindow window
    /\ Events.command (g arg) = Events.command (f arg)
    /\ Events.name (g arg) = Events.name (f arg)
    /\ Events.name (f arg) = Events.property Object_prototype Events.mappings event
    /\ Events.arg (g arg) = arg
    /\ Events.arg (f arg) = arg.
Proof.
  unfold Events.events, Events.__makeEvents__, Events.get, Events.apply, Events.own. simpl.
  intros Hf Hg arg.
  repeat case_decide; subst; simplify_eq;
    repeat (rewrite lookup_insert_ne in Hg by discriminate);
    rewrite lookup_insert_eq in Hg; simplify_eq; repeat split.
Qed.

(** A key that is no event is not refused: when neither [mappings] nor
    [Object.prototype] has it, the event object is handed out all the same
    and its calls go out under the name [undefined]. *)
Theorem unknown_event_is_not_refused (event : string) :
  Events.own Events.mappings !! event = None ->
  Object_prototype event = None ->
  exists f g h,
    Events.on_get (events event) "listen" = Some f
    /\ Events.on_get (events event) "once" = Some g
    /\ Events.on_get (events event) "emit" = Some h
    /\ forall arg : JsValue,
         Events.name (f arg) = JsUndefined
         /\ Events.name (g arg) = JsUndefined
         /\ Events.name (h arg) = JsUndefined.
Proof.
  intros Hown Hproto.
  unfold Events.events, Events.__makeEvents__, Events.property. rewrite Hown, Hproto. simpl.
  do 3 eexists. repeat split; reflexivity.
Qed.

End EventFacts.

(** Two declared events. *)
Lemma event_names_distinct_witness :
  Events.property Events.sample_prototype Events.mappings "renderFrameEvent"
  <> Events.property Events.sample_prototype Events.mappings "newRecordingAdded".
Proof.
  intros H.
  pose proof (event_names_distinct Events.sample_prototype
                "renderFrameEvent" "newRecordingAdded"
                ltac:(eexists; reflexivity) ltac:(eexists; reflexivity) H) as Heq.
  discriminate Heq.
Defined.

(** [events.renderFrameEvent.listen] and [events.renderFrameEvent(window).listen]. *)
Lemma window_changes_only_the_bus_witness :
  exists f g : JsValue -> Events.Call,
    Events.on_get (Events.events Events.sample_prototype "renderFrameEvent") "listen" = Some f
    /\ Events.own (Events.on_apply (Events.events Events.sample_prototype "renderFrameEvent")
                     (JsString "main")) !! "listen" = Some g
    /\ Events.name (g JsNull) = JsString "render-frame-event"
    /\ Events.bus (g JsNull) = Events.WebviewWindow (JsString "main").
Proof.
  eexists _, _. split; [reflexivity |]. split; [reflexivity |].
  pose proof (window_changes_only_the_bus Events.sample_prototype
                "renderFrameEvent" "listen" (JsString "main") _ _ eq_refl eq_refl JsNull)
    as (_ & Hbus & _ & Hname & Hf & _).
  split; [rewrite Hname, Hf; reflexivity | exact Hbus].
Defined.

(** A misspelled key: [events.renderFrameEvnt.listen(cb)]. *)
Lemma unknown_event_is_not_refused_witness :
  exists f : JsValue -> Events.Call,
    Events.on_get (Events.events Events.sample_prototype "renderFrameEvnt") "listen" = Some f
    /\ Events.name (f JsNull) = JsUndefined.
Proof.
  destruct (unknown_event_is_not_refused Events.sample_prototype "renderFrameEvnt"
              eq_refl eq_refl) as (f & g & h & Hf & _ & _ & Hname).
  exists f. split; [exact Hf | exact (proj1 (Hname JsNull))].
Defined.

(** An inherited key: [events.toString.listen(cb)] goes out under what
    [Object.prototype] holds, not under [undefined]. *)
Example inherited_key :
  Events.property Events.sample_prototype Events.mappings "toString" = JsObject [].
Proof. reflexivity. Qed.

(** * The tagged unions *)


(** * The Editor Instance behind [createEditorInstance] *)

Section EditorFacts.
Variable socket_address : string -> string.
Variable duration_of : ProjectRecordings -> number.
Variable frame_count : ProjectRecordings -> nat.
Variable collaborators : forall T : Type, Cmd T -> Promise Editor.Backend T.

Local Abbreviation backend :=
  (Editor.invoke socket_address duration_of frame_count collaborators).

(** An unknown [videoId] leaves the backend as it was. *)
Lemma create_unknown (videoId : string) (b : Editor.Backend) :
  Editor.library b !! videoId = None ->
  Editor.create socket_address duration_of videoId b = (Rejected Editor.NotFound, b).
Proof. unfold Editor.create. intros ->. reflexivity. Qed.

(** A known [videoId] registers the instance it opens. *)
Lemma create_known (videoId : string) (b : Editor.Backend) (r : Editor.Recording) :
  Editor.library b !! videoId = Some r ->
  exists b',
    Editor.create socket_address duration_of videoId b
    = (Fulfilled (Editor.serialize duration_of (Editor.open_instance socket_address videoId r)), b')
    /\ Editor.library b' = Editor.library b
    /\ Editor.instances b' !! videoId = Some (Editor.open_instance socket_address videoId r).
Proof.
  unfold Editor.create. intros ->. eexists. split; [reflexivity |].
  split; [reflexivity |]. simpl. apply lookup_insert_eq.
Qed.

(** C5. [createEditorInstance videoId] fails with [NotFound] when the
    [videoId] names no recording; otherwise it succeeds with a serialized
    editor instance that carries the address of the playback stream, the
    duration of the recording, the saved project configuration if there is
    one ([null] otherwise), and the metadata of the display track and of the
    optional camera and audio tracks. *)
Theorem createEditorInstance_contract (videoId : string) (b : Editor.Backend) :
  match Editor.library b !! videoId with
  | None =>
      createEditorInstance backend videoId b = (Fulfilled (error Editor.NotFound), b)
  | Some r =>
      exists (i : SerializedEditorInstance) (b' : Editor.Backend),
        createEditorInstance backend videoId b = (Fulfilled (ok i), b')
        /\ framesSocketUrl i = socket_address videoId
        /\ recordingDuration i = duration_of (Editor.tracks r)
        /\ savedProjectConfig i = Editor.savedProject r
        /\ recordings i = Editor.tracks r
        /\ Recordings_display (recordings i) = Recordings_display (Editor.tracks r)
        /\ Recordings_camera (recordings i) = Recordings_camera (Editor.tracks r)
        /\ Recordings_audio (recordings i) = Recordings_audio (Editor.tracks r)
  end.
Proof.
  unfold createEditorInstance. rewrite try_catch_block.
  change (backend _ (create_editor_instance videoId) b)
    with (Editor.create socket_address duration_of videoId b).
  destruct (Editor.library b !! videoId) as [r |] eqn:Hr.
  - destruct (create_known videoId b r Hr) as [b' [-> _]].
    do 2 eexists. split; [reflexivity |]. repeat split.
  - rewrite (create_unknown videoId b Hr). reflexivity.
Qed.

Lemma clamp_value (total : nat) (z : Z) :
  Z.of_nat (Editor.clamp total z) = Z.max 0 (Z.min z (Z.of_nat total - 1)).
Proof. unfold Editor.clamp. lia. Qed.

Lemma clamp_in_range (total : nat) (z : Z) : 0 < total -> Editor.clamp total z < total.
Proof. pose proof (clamp_value total z). lia. Qed.

Lemma clamp_of_a_frame (total : nat) (z : Z) :
  (0 <= z < Z.of_nat total)%Z -> Z.of_nat (Editor.clamp total z) = z.
Proof. pose proof (clamp_value total z). lia. Qed.

(** A tick of a running loop below the end of the track pushes the frame
    at the playhead and advances. *)
Lemma tick_streams (i : Editor.EditorInstance) :
  Editor.playing i = true ->
  Editor.playhead i < Editor.totalFrames frame_count i ->
  Editor.streamed (Editor.tick frame_count i) = Editor.streamed i ++ [Editor.playhead i]
  /\ Editor.playhead (Editor.tick frame_count i) = S (Editor.playhead i)
  /\ Editor.playing (Editor.tick frame_count i) = true.
Proof.
  intros Hplay Hlt. unfold Editor.tick. rewrite Hplay.
  destruct (decide (Editor.playhead i < Editor.totalFrames frame_count i)) as [_ | Hge];
    [repeat split | destruct (Hge Hlt)].
Qed.

(** At the end of the track the loop stops by itself, and [stop] halts it
    whether it runs or not. *)
Lemma tick_at_the_end (i : Editor.EditorInstance) :
  Editor.totalFrames frame_count i <= Editor.playhead i ->
  Editor.playing (Editor.tick frame_count i) = false
  /\ Editor.streamed (Editor.tick frame_count i) = Editor.streamed i.
Proof.
  intros Hend. unfold Editor.tick.
  destruct (Editor.playing i) eqn:Hplay; [| split; [exact Hplay | reflexivity]].
  destruct (decide (Editor.playhead i < Editor.totalFrames frame_count i)); [lia |].
  split; reflexivity.
Qed.

Lemma stop_idempotent (i : Editor.EditorInstance) :
  Editor.stop (Editor.stop i) = Editor.stop i.
Proof. reflexivity. Qed.

(** C7. [setPlayheadPosition videoId f] on an editor instance with
    [totalFrames] frames sets the playhead to [f] clamped into
    [[0, totalFrames - 1]]; a frame of the track is kept as it is; and when
    playback is active it stays active, and the next tick streams the
    frame at the clamped position and goes on from there. *)
Theorem setPlayheadPosition_clamps (videoId : string) (f : Z)
    (b : Editor.Backend) (i : Editor.EditorInstance) :
  Editor.instances b !! videoId = Some i ->
  0 < Editor.totalFrames frame_count i ->
  exists (b' : Editor.Backend) (i' : Editor.EditorInstance),
    setPlayheadPosition backend videoId (inject_Z f) b = (Fulfilled undefined, b')
    /\ Editor.instances b' !! videoId = Some i'
    /\ Z.of_nat (Editor.playhead i')
       = Z.max 0 (Z.min f (Z.of_nat (Editor.totalFrames frame_count i) - 1))
    /\ Editor.playhead i' < Editor.totalFrames frame_count i
    /\ ((0 <= f < Z.of_nat (Editor.totalFrames frame_count i))%Z ->
        Z.of_nat (Editor.playhead i') = f)
    /\ Editor.playing i' = Editor.playing i
    /\ (Editor.playing i = true ->
        exists i'' : Editor.EditorInstance,
          Editor.instances (Editor.tick_instance frame_count videoId b') !! videoId = Some i''
          /\ Editor.streamed i'' = Editor.streamed i ++ [Editor.playhead i']
          /\ Editor.playhead i'' = S (Editor.playhead i')
          /\ Editor.playing i'' = true).
Proof.
  intros Hi Htotal.
  exists {| Editor.library := Editor.library b;
            Editor.instances := <[videoId := Editor.seek frame_count f i]> (Editor.instances b) |},
         (Editor.seek frame_count f i).
  split.
  { unfold setPlayheadPosition, awaiting, resolve.
    change (backend _ (set_playhead_position videoId (inject_Z f)) b)
      with (Editor.on_instance videoId
              (Editor.seek frame_count (Editor.frame_of_number (inject_Z f))) b).
    unfold Editor.on_instance, Editor.frame_of_number. rewrite Hi, Qfloor_Z. reflexivity. }
  split; [simpl; apply lookup_insert_eq |].
  split; [apply clamp_value |].
  split; [apply clamp_in_range, Htotal |].
  split; [apply clamp_of_a_frame |].
  split; [reflexivity |].
  intros Hplay.
  exists (Editor.tick frame_count (Editor.seek frame_count f i)).
  split.
  { unfold Editor.tick_instance. simpl. rewrite lookup_alter_eq, lookup_insert_eq. reflexivity. }
  apply (tick_streams (Editor.seek frame_count f i)).
  - exact Hplay.
  - apply clamp_in_range, Htotal.
Qed.

End EditorFacts.

(** Seeking far past the end of a sixty-frame track while it plays: the
    playhead lands on frame 59. *)
Lemma setPlayheadPosition_clamps_witness :
  exists (b' : Editor.Backend) (i' : Editor.EditorInstance),
    setPlayheadPosition sample_editor_invoke "a" (inject_Z 100) sample_editor
    = (Fulfilled undefined, b')
    /\ Editor.instances b' !! "a" = Some i'
    /\ Z.of_nat (Editor.playhead i') = 59%Z.
Proof.
  destruct (setPlayheadPosition_clamps
              (fun id => String.append "ws://localhost/" id)
              (fun t => Video_duration (Recordings_display t)) (fun _ => 60)
              (fun T _ => throw (JsString "unknown command"))
              "a" 100 sample_editor sample_playing)
    as (b' & i' & Hcall & Hi' & Hclamp & _).
  - apply lookup_singleton_eq.
  - unfold Editor.totalFrames. lia.
  - exists b', i'. split; [exact Hcall |]. split; [exact Hi' | exact Hclamp].
Defined.

(** [createEditorInstance] on a library of one recording that was never
    saved: a known and an unknown [videoId]. *)
Example createEditorInstance_sample :
  let b := {| Editor.library := {[ "a" := sample_recording ]}; Editor.instances := ∅ |} in
  let backend :=
    Editor.invoke (fun id => String.append "ws://localhost/" id)
      (fun t => Video_duration (Recordings_display t)) (fun _ => 60)
      (fun T _ => throw (JsString "unknown command")) in
  (createEditorInstance backend "a" b).1
  = Fulfilled (ok {| framesSocketUrl := "ws://localhost/a";
                     recordingDuration := (2 # 1)%Q;
                     savedProjectConfig := None;
                     recordings := Editor.tracks sample_recording;
                     Instance_path := "recordings/a.cap" |})
  /\ (createEditorInstance backend "b" b).1 = Fulfilled (error (JsString "NotFound")).
Proof. split; vm_compute; reflexivity. Qed.

(** * The Render Engine behind [renderToFile] *)

Module RenderFacts.
Import RenderEngine.

Lemma last_cons_default {A} (l : list A) (t d : A) : List.last (t :: l) d = List.last l t.
Proof.
  revert t d. induction l as [| a l IH]; intros t d; [reflexivity |].
  change (List.last (a :: l) d = List.last (a :: l) t).
  rewrite !IH. reflexivity.
Qed.




(** The frames an ordered stream reports are 0, 1, .., k-1, and these
    numbers grow strictly. *)
Lemma reported_frames_progress_stream (e : nat) (rs : list nat) (k : nat) :
  reported_frames (progress_stream e rs k) = map frame_number (seq 0 k).
Proof.
  unfold reported_frames, progress_stream. simpl. rewrite omap_app.
  assert (omap (fun m => match m with FrameRendered f => Some f | _ => None end)
            (map (fun t => EstimatedTotalFrames (frame_number t)) rs) = []) as ->.
  { induction rs as [| t rs IH]; [reflexivity | exact IH]. }
  simpl. generalize (seq 0 k). intros l.
  induction l as [| i l IH]; [reflexivity |]. simpl. f_equal. exact IH.
Qed.

Lemma frame_number_lt (i j : nat) : i < j -> (frame_number i < frame_number j)%Q.
Proof. intros H. unfold frame_number, Qlt. simpl. lia. Qed.

Section Engine.
Context {Frame : Type}.
Implicit Types (job : Job Frame) (s : State Frame).

Lemma run_S job n s : run job (S n) s = step job (run job n s).
Proof. reflexivity. Qed.

Lemma run_S_r job n s : run job (S n) s = run job n (step job s).
Proof. unfold run. apply Nat.iter_succ_r. Qed.

Lemma step_terminated job s o : phase s = Terminated o -> step job s = s.
Proof. unfold step. intros ->. reflexivity. Qed.

Lemma run_terminated job n s o : phase s = Terminated o -> run job n s = s.
Proof.
  intros H. induction n as [| n IH]; [reflexivity |].
  rewrite run_S, IH. exact (step_terminated job s o H).
Qed.

(** Any property that holds at the start and that a processing unit
    preserves holds throughout. *)
Lemma run_invariant (P : State Frame -> Prop) job n s :
  P s -> (forall s', P s' -> P (step job s')) -> P (run job n s).
Proof.
  intros H0 Hstep. induction n as [| n IH]; [exact H0 |].
  rewrite run_S. apply Hstep, IH.
Qed.

(** *** The channel *)






(** *** The files *)

(** While a job runs its temporary file is there, whatever the paths. *)
Lemma temporary_file_step job s :
  (forall o, phase s <> Terminated o) ->
  is_Some (files s !! temporaryPath job) ->
  (forall o, phase (step job s) <> Terminated o) ->
  is_Some (files (step job s) !! temporaryPath job).
Proof.
  intros Hrun Htmp. unfold step, advance.
  destruct (phase s) as [[| t pending] | next | o] eqn:Hp;
    [| | | destruct (Hrun o eq_refl)];
    destruct (disturbance job (clock s)); simpl; intros Hrun';
    try (destruct (Hrun' _ eq_refl)); try exact Htmp.
  destruct (decide (next < total s)); simpl in *.
  - rewrite lookup_alter_eq. destruct Htmp as [written ->]. eexists; reflexivity.
  - destruct (files s !! temporaryPath job); destruct (Hrun' _ eq_refl).
Qed.

Section Paths.
Variable job : Job Frame.
Hypothesis distinct_paths : temporaryPath job <> outputPath job.






End Paths.

(** *** Termination *)

Lemma remaining_terminated s : remaining s = 0 -> exists o, phase s = Terminated o.
Proof.
  unfold remaining. destruct (phase s) as [pending | next | o]; [lia | lia | eauto].
Qed.

Lemma remaining_step job s :
  remaining s <> 0 -> remaining (step job s) < remaining s.
Proof.
  unfold remaining at 1 3, step, advance.
  destruct (phase s) as [[| t pending] | next | o] eqn:Hp; [| | | lia]; intros _;
    destruct (disturbance job (clock s)); unfold remaining; simpl phase; simpl total;
    try (simpl; lia).
  - rewrite (last_cons_default pending t (total s)). simpl. lia.
  - destruct (decide (next < total s)); simpl; [lia |].
    destruct (files s !! temporaryPath job); simpl; lia.
Qed.

Lemma run_terminates job n s :
  remaining s <= n -> exists o, phase (run job n s) = Terminated o.
Proof.
  revert s. induction n as [| n IH]; intros s Hn.
  - apply remaining_terminated. simpl. lia.
  - rewrite run_S_r.
    destruct (decide (remaining s = 0)) as [H0 | Hpos].
    + destruct (remaining_terminated s H0) as [o Ho].
      rewrite (step_terminated job s o Ho), (run_terminated job n s o Ho). eauto.
    + apply IH. pose proof (remaining_step job s Hpos). lia.
Qed.

(** Every job terminates, after at most as many units as there are
    revisions and frames, and two. *)
Lemma render_terminates job fs :
  exists o,
    phase (run job (length (revisions job) + 2
                    + last_announced (estimate job) (revisions job)) (start job fs))
    = Terminated o.
Proof. apply run_terminates. unfold remaining, start, last_announced. simpl. lia. Qed.

(** A job that nothing disturbs does not fail. *)
Lemma undisturbed_step job s :
  (forall t, disturbance job t = Undisturbed) ->
  match phase s with
  | Terminated o => o = Success
  | _ => is_Some (files s !! temporaryPath job)
  end ->
  match phase (step job s) with
  | Terminated o => o = Success
  | _ => is_Some (files (step job s) !! temporaryPath job)
  end.
Proof.
  intros Hq H.
  destruct (phase s) as [pending | next | o] eqn:Hp.
  - pose proof (temporary_file_step job s) as Ht.
    unfold step, advance in *. rewrite Hp, Hq in *.
    destruct pending; simpl in *; exact H.
  - pose proof (temporary_file_step job s) as Ht.
    unfold step, advance in *. rewrite Hp, Hq in *.
    destruct (decide (next < total s)); simpl in *.
    + apply Ht; [discriminate | exact H | discriminate].
    + destruct H as [written ->]. reflexivity.
  - rewrite (step_terminated job s o Hp), Hp. exact H.
Qed.

Lemma undisturbed_render_succeeds job fs :
  (forall t, disturbance job t = Undisturbed) ->
  phase (run job (length (revisions job) + 2
                  + last_announced (estimate job) (revisions job)) (start job fs))
  = Terminated Success.
Proof.
  intros Hq.
  destruct (render_terminates job fs) as [o Ho]. rewrite Ho. f_equal.
  pose proof (run_invariant
                (fun s => match phase s with
                          | Terminated o => o = Success
                          | _ => is_Some (files s !! temporaryPath job)
                          end)
                job (length (revisions job) + 2
                     + last_announced (estimate job) (revisions job)) (start job fs)) as H.
  simpl in H. rewrite Ho in H. apply H.
  - rewrite lookup_insert_eq. eexists; reflexivity.
  - intros s'. apply undisturbed_step, Hq.
Qed.

End Engine.

(** The scenario of the specification: ten frames, nothing revised,
    nothing in the way. *)
Example ten_frames :
  let s := run quiet_job 12 (start quiet_job ∅) in
  phase s = Terminated Success
  /\ channel s = Starting (frame_number 10)
                 :: map (fun i => FrameRendered (frame_number i)) [0; 1; 2; 3; 4; 5; 6; 7; 8; 9]
  /\ files s !! "out.mp4" = Some [0; 1; 2; 3; 4; 5; 6; 7; 8; 9]
  /\ files s !! "out.mp4.part" = None.
Proof. vm_compute. repeat split. Qed.





End RenderFacts.

(** * The Recording Session behind [stopRecording] *)

Section SessionFacts.
Variable resolves : RecordingOptions -> bool.
Variable open_sources : RecordingOptions -> InProgressRecording + string.
Variable video_id : InProgressRecording -> string.
Variable collaborators : forall T : Type, Cmd T -> Promise Session.Backend T.

Local Abbreviation backend :=
  (Session.invoke resolves open_sources video_id collaborators).

(** A session that was never active is left alone by a stop request. *)
Lemma stop_before_active (b : Session.Backend) :
  Session.session b = Session.Starting
  \/ (exists reason, Session.session b = Session.Aborted reason false) ->
  Session.stop video_id collaborators b = (Fulfilled null, b).
Proof.
  unfold Session.stop. intros [-> | [reason ->]]; reflexivity.
Qed.

(** A second stop request after the one that finalized the session changes
    nothing. *)
Lemma stop_twice (b : Session.Backend) (recording : InProgressRecording) :
  Session.session b = Session.Active recording ->
  exists b',
    Session.stop video_id collaborators b = (Fulfilled null, b')
    /\ Session.session b' = Session.Finalized (video_id recording)
    /\ Session.stop video_id collaborators b' = (Fulfilled null, b').
Proof.
  unfold Session.stop. intros ->. eexists. repeat split.
Qed.

(** C4. A stop request issued while the session is [Idle] or [Finalized]
    is a no-op: [stopRecording] returns [{ status: "ok", data: null }], not
    an error, and the session is left as it was. *)
Theorem stopRecording_idle_or_finalized (b : Session.Backend) :
  Session.session b = Session.Idle
  \/ (exists videoId, Session.session b = Session.Finalized videoId) ->
  stopRecording backend b = (Fulfilled (ok null), b).
Proof.
  intros H. unfold stopRecording. rewrite try_catch_block.
  change (backend _ stop_recording b) with (Session.stop video_id collaborators b).
  unfold Session.stop. destruct H as [-> | [videoId ->]]; reflexivity.
Qed.

End SessionFacts.

(** A stop request before any recording was started. *)
Lemma stopRecording_idle_or_finalized_witness :
  stopRecording sample_session_invoke sample_session = (Fulfilled (ok null), sample_session).
Proof.
  apply (stopRecording_idle_or_finalized (fun _ => true) (fun _ => inr "DeviceUnavailable")
           recordingDir (fun T _ => throw (JsString "unknown command")) sample_session).
  left. reflexivity.
Defined.

(** The playing editor, a seek to 100 and one tick: frame 59 is streamed. *)
Example seek_then_tick :
  let b' := (setPlayheadPosition sample_editor_invoke "a" (inject_Z 100) sample_editor).2 in
  (Editor.streamed <$> Editor.instances (Editor.tick_instance (fun _ => 60) "a" b') !! "a")
  = Some [0; 1; 2; 3; 4; 59].
Proof. vm_compute. reflexivity. Qed.

(** A start that fails aborts the session; a stop request then changes
    nothing. *)
Example start_fails_then_stop :
  let b' := (startRecording sample_session_invoke sample_session).2 in
  (startRecording sample_session_invoke sample_session).1
  = Fulfilled (error (JsString "DeviceUnavailable"))
  /\ Session.session b' = Session.Aborted "DeviceUnavailable" false
  /\ stopRecording sample_session_invoke b' = (Fulfilled (ok null), b').
Proof. repeat split. Qed.
